(** * Bank transaction cleaning and analysis (src/bank_analysis.py)

    A shallow embedding of the pandas pipeline of [bank_analysis.py]:
    the DataFrame is a list of named, typed columns of Python values with a
    row index; each pandas operation the script uses is a Rocq function on
    that representation.  Numbers the script computes with floats are
    computed here exactly, over [Q]. *)

From Stdlib Require Import String ZArith QArith Qround Qabs List Bool Lia Lqa.
From Stdlib Require Import Sorting.Sorted Sorting.Permutation.
Import ListNotations.
Open Scope string_scope.

(** ** Data model *)

(** A cell of a DataFrame: a Python int, a Python str, or a missing value
    ([None] / [NaN], what [isnull] detects). *)
Inductive value : Type :=
| VInt (z : Z)
| VStr (s : string)
| VNull.

(** The dtypes the script meets: [int64], [object] (strings) and the
    [category] dtype produced by [astype('category')]. *)
Inductive dtype : Type := Int64 | Object | Category.

Record column : Type := mkColumn {
  col_name : string;
  col_dtype : dtype;
  col_values : list value
}.

(** A DataFrame: its row index and its columns, in order. *)
Record frame : Type := mkFrame {
  index : list Z;
  columns : list column
}.

Definition value_eqb (v w : value) : bool :=
  match v, w with
  | VInt a, VInt b => Z.eqb a b
  | VStr a, VStr b => String.eqb a b
  | VNull, VNull => true
  | _, _ => false
  end.

Definition dtype_eqb (d e : dtype) : bool :=
  match d, e with
  | Int64, Int64 | Object, Object | Category, Category => true
  | _, _ => false
  end.

Fixpoint row_eqb (r s : list value) : bool :=
  match r, s with
  | [], [] => true
  | v :: r', w :: s' => value_eqb v w && row_eqb r' s'
  | _, _ => false
  end.

(** ** Step 1: building the DataFrame (lines 17-32) *)

(** Python [range(a, b)] as a column of ints. *)
Definition range (a b : Z) : list value :=
  map (fun k => VInt (a + Z.of_nat k)) (seq 0 (Z.to_nat (b - a))).

Definition strs (l : list string) : list value := map VStr l.
Definition ints (l : list Z) : list value := map VInt l.

Definition data : list (string * list value) := [
  ("交易ID", range 1001 1021);
  ("客户ID", strs ["C1001"; "C1002"; "C1001"; "C1003"; "C1004"; "C1002"; "C1005"; "C1003"; "C1006"; "C1007";
                 "C1008"; "C1004"; "C1009"; "C1010"; "C1005"; "C1001"; "C1006"; "C1011"; "C1002"; "C1003"]);
  ("交易类型", strs ["存款"; "取款"; "转账"; "存款"; "取款"; "转账"; "存款"; "取款"; "存款"; "转账";
                   "取款"; "存款"; "转账"; "存款"; "取款"; "转账"; "存款"; "取款"; "存款"; "转账"]);
  ("交易金额", ints [5000; -2000; -1500; 8000; -500; -3000; 12000; -2200; 6000; -4000;
                   -1000; 7000; -2500; 9000; -1200; -3500; 4500; -800; 3000; -1500]%Z);
  ("交易渠道", strs ["网银"; "ATM"; "手机银行"; "柜台"; "ATM"; "网银"; "手机银行"; "柜台"; "网银"; "手机银行";
                   "ATM"; "柜台"; "网银"; "手机银行"; "ATM"; "手机银行"; "柜台"; "ATM"; "网银"; "柜台"]);
  ("交易状态", strs ["成功"; "成功"; "成功"; "成功"; "失败"; "成功"; "成功"; "成功"; "成功"; "成功";
                   "成功"; "成功"; "成功"; "成功"; "成功"; "成功"; "成功"; "成功"; "成功"; "成功"])
].

(** dtype inference of the DataFrame constructor: all ints give [int64],
    anything else [object]. *)
Definition infer_dtype (vs : list value) : dtype :=
  if forallb (fun v => match v with VInt _ => true | _ => false end) vs
  then Int64 else Object.

(** [pd.DataFrame(dict)]: one column per key, in insertion order, with a
    default [RangeIndex]; pandas raises [ValueError] when the arrays do not
    all have the same length, modelled as [None]. *)
Definition DataFrame (d : list (string * list value)) : option frame :=
  let n := match d with [] => 0%nat | (_, vs) :: _ => length vs end in
  if forallb (fun kv => Nat.eqb (length (snd kv)) n) d
  then Some (mkFrame (map Z.of_nat (seq 0 n))
                     (map (fun kv => mkColumn (fst kv) (infer_dtype (snd kv)) (snd kv)) d))
  else None.

Definition empty_frame : frame := mkFrame [] [].

Definition df : frame :=
  match DataFrame data with Some f => f | None => empty_frame end.

(** ** Generic DataFrame operations *)

Definition nrows (f : frame) : nat := length (index f).

Definition row (f : frame) (i : nat) : list value :=
  map (fun c => nth i (col_values c) VNull) (columns f).

Definition rows (f : frame) : list (list value) :=
  map (row f) (seq 0 (nrows f)).

(** [df[name]]: the values of the named column ([KeyError] as [[]]). *)
Definition col (f : frame) (name : string) : list value :=
  match find (fun c => String.eqb (col_name c) name) (columns f) with
  | Some c => col_values c
  | None => []
  end.

(** Keep the positions of [l] where [mask] is [true]. *)
Fixpoint select {A : Type} (mask : list bool) (l : list A) : list A :=
  match mask, l with
  | b :: mask', x :: l' => if b then x :: select mask' l' else select mask' l'
  | _, _ => []
  end.

(** Boolean indexing [df[mask]]: the rows where [mask] holds, keeping their
    index labels. *)
Definition filter_rows (mask : list bool) (f : frame) : frame :=
  mkFrame (select mask (index f))
          (map (fun c => mkColumn (col_name c) (col_dtype c) (select mask (col_values c)))
               (columns f)).

(** Element-wise comparisons of a column with a scalar. *)
Definition gt_mask (vs : list value) (k : Z) : list bool :=
  map (fun v => match v with VInt z => Z.gtb z k | _ => false end) vs.

Definition lt_mask (vs : list value) (k : Z) : list bool :=
  map (fun v => match v with VInt z => Z.ltb z k | _ => false end) vs.

Definition eq_mask (vs : list value) (s : string) : list bool :=
  map (fun v => value_eqb v (VStr s)) vs.

(** [mask1 | mask2]. *)
Definition or_mask (m1 m2 : list bool) : list bool :=
  map (fun p => orb (fst p) (snd p)) (combine m1 m2).

(** [DataFrame.empty]. *)
Definition frame_empty (f : frame) : bool := Nat.eqb (nrows f) 0.

(** ** Step 2: cleaning (lines 38-63) *)

(** [df.isnull().sum()]: per column, the number of missing cells. *)
Definition is_null (v : value) : bool :=
  match v with VNull => true | _ => false end.

Definition isnull_sum (f : frame) : list (string * nat) :=
  map (fun c => (col_name c, length (filter is_null (col_values c)))) (columns f).

(** [df.duplicated()] with [keep='first']: row [i] is flagged when an
    earlier row is identical to it in every column. *)
Definition duplicated (f : frame) : list bool :=
  map (fun i => existsb (fun j => row_eqb (row f j) (row f i)) (seq 0 i))
      (seq 0 (nrows f)).

Definition duplicated_sum (f : frame) : nat :=
  length (filter (fun b => b) (duplicated f)).

(** Line 50: [df[(df['交易金额'] > 10000) | (df['交易金额'] < -5000)]]. *)
Definition abnormal (f : frame) : frame :=
  filter_rows (or_mask (gt_mask (col f "交易金额") 10000)
                       (lt_mask (col f "交易金额") (-5000)))
              f.

(** What lines 51-57 print: the flagged rows, or the fixed message. *)
Inductive report : Type :=
| PrintFrame (f : frame)
| PrintMsg (s : string).

Definition no_abnormal_msg : string := "未发现定义的异常值。".

Definition outlier_report (f : frame) : report :=
  let a := abnormal f in
  if negb (frame_empty a) then PrintFrame a else PrintMsg no_abnormal_msg.

(** [df[name] = df[name].astype('category')]: the column keeps its values,
    only its dtype changes. *)
Definition astype_category (name : string) (f : frame) : frame :=
  mkFrame (index f)
          (map (fun c => if String.eqb (col_name c) name
                         then mkColumn (col_name c) Category (col_values c)
                         else c)
               (columns f)).

Record clean_log : Type := mkCleanLog {
  log_isnull : list (string * nat);
  log_duplicates : nat;
  log_outliers : report
}.

(** The whole cleaning stage: the three diagnostics, then the retyping of
    lines 60-61.  The returned frame is the [df] the later stages use. *)
Definition cleaner (f : frame) : clean_log * frame :=
  let lg := mkCleanLog (isnull_sum f) (duplicated_sum f) (outlier_report f) in
  (lg, astype_category "交易渠道" (astype_category "交易类型" f)).

Definition df_clean : frame := snd (cleaner df).

(** ** Sorting and categories *)

(** Insertion sort with a boolean order; an element goes before the first
    element it is [le] to, so equal elements keep their order. *)
Fixpoint insert_by {A : Type} (le : A -> A -> bool) (x : A) (l : list A) : list A :=
  match l with
  | [] => [x]
  | y :: l' => if le x y then x :: l else y :: insert_by le x l'
  end.

Fixpoint sort_by {A : Type} (le : A -> A -> bool) (l : list A) : list A :=
  match l with
  | [] => []
  | x :: l' => insert_by le x (sort_by le l')
  end.

(** Order of the categories pandas infers: numbers before strings, strings
    by code point (the byte order of their UTF-8 encoding). *)
Definition value_leb (v w : value) : bool :=
  match v, w with
  | VInt a, VInt b => Z.leb a b
  | VInt _, _ => true
  | VStr a, VStr b =>
      match String.compare a b with Gt => false | _ => true end
  | VStr _, VInt _ => false
  | VStr _, VNull => true
  | VNull, VNull => true
  | VNull, _ => false
  end.

(** Distinct values, in order of first appearance. *)
Fixpoint uniq_from (seen : list value) (vs : list value) : list value :=
  match vs with
  | [] => []
  | v :: vs' =>
      if existsb (value_eqb v) seen then uniq_from seen vs'
      else v :: uniq_from (v :: seen) vs'
  end.

Definition uniq (vs : list value) : list value := uniq_from [] vs.

(** The categories of [astype('category')]: the sorted distinct non-null
    values. *)
Definition categories (vs : list value) : list value :=
  sort_by value_leb (uniq (filter (fun v => negb (is_null v)) vs)).

Definition count_value (c : value) (vs : list value) : nat :=
  length (filter (value_eqb c) vs).

(** [Series.value_counts()] of a categorical column: one entry per
    category, sorted by descending count. *)
Definition value_counts (vs : list value) : list (value * nat) :=
  sort_by (fun a b => Nat.leb (snd b) (snd a))
          (map (fun c => (c, count_value c vs)) (categories vs)).

(** ** Step 3: analysis (lines 65-83) *)

(** The ints of a column, missing values dropped (what pandas reductions
    skip). *)
Fixpoint dropna_ints (vs : list value) : list Z :=
  match vs with
  | [] => []
  | VInt z :: vs' => z :: dropna_ints vs'
  | _ :: vs' => dropna_ints vs'
  end.

Definition sumZ (zs : list Z) : Z := fold_right Z.add 0%Z zs.

Definition meanQ (zs : list Z) : Q :=
  Qred (inject_Z (sumZ zs) / inject_Z (Z.of_nat (length zs))).

(** Linear-interpolation quantile ([Series.quantile], the default of
    [describe]) of an ascending list. *)
Definition quantile (sorted : list Z) (q : Q) : Q :=
  let n := length sorted in
  let pos := (inject_Z (Z.of_nat n - 1) * q)%Q in
  let lo := Qfloor pos in
  let frac := (pos - inject_Z lo)%Q in
  let vlo := nth (Z.to_nat lo) sorted 0%Z in
  let vhi := nth (S (Z.to_nat lo)) sorted vlo in
  Qred (inject_Z vlo + inject_Z (vhi - vlo) * frac)%Q.

(** [Series.describe()] of a numeric column.  pandas prints the standard
    deviation (ddof = 1); it is kept here as its square, the sample
    variance, which determines it. *)
Record describe_out : Type := mkDescribe {
  d_count : nat;
  d_mean : Q;
  d_var : Q;
  d_min : Q;
  d_q25 : Q;
  d_q50 : Q;
  d_q75 : Q;
  d_max : Q
}.

Definition describe (vs : list value) : describe_out :=
  let zs := dropna_ints vs in
  let s := sort_by Z.leb zs in
  let n := length zs in
  let m := meanQ zs in
  let ss := fold_right Qplus 0%Q
              (map (fun z => (inject_Z z - m) * (inject_Z z - m))%Q zs) in
  mkDescribe n m
    (Qred (ss / inject_Z (Z.of_nat n - 1)))
    (inject_Z (hd 0%Z s)) (quantile s (1#4)) (quantile s (1#2))
    (quantile s (3#4)) (inject_Z (last s 0%Z)).

(** numpy's [round(x, 2)]: scale by 100, round half to even, scale back. *)
Definition round_half_even (q : Q) : Z :=
  let f := Qfloor q in
  match Qcompare (q - inject_Z f) (1#2) with
  | Lt => f
  | Gt => (f + 1)%Z
  | Eq => if Z.even f then f else (f + 1)%Z
  end.

Definition round2 (q : Q) : Q :=
  Qred (inject_Z (round_half_even (q * 100)) / 100).

(** One line of [groupby(key)[val].agg(['count', 'sum', 'mean']).round(2)];
    the mean of an empty group is [NaN], here [None]. *)
Record group_row : Type := mkGroupRow {
  g_key : value;
  g_count : nat;
  g_sum : Z;
  g_mean : option Q
}.

(** Positions of the rows whose [key] column holds [k]. *)
Definition group_mask (f : frame) (key : string) (k : value) : list bool :=
  map (value_eqb k) (col f key).

Definition group_indices (f : frame) (key : string) (k : value) : list nat :=
  select (group_mask f key k) (seq 0 (nrows f)).

(** The non-missing [val] entries of the group of [k]. *)
Definition group_amounts (f : frame) (key val : string) (k : value) : list Z :=
  dropna_ints (select (group_mask f key k) (col f val)).

Definition group_agg (f : frame) (key val : string) : list group_row :=
  map (fun k =>
         let zs := group_amounts f key val k in
         mkGroupRow k (length zs) (sumZ zs)
           (match zs with [] => None | _ => Some (round2 (meanQ zs)) end))
      (categories (col f key)).

Definition type_summary (f : frame) : list group_row :=
  group_agg f "交易类型" "交易金额".

Definition channel_count (f : frame) : list (value * nat) :=
  value_counts (col f "交易渠道").

Definition failed_transactions (f : frame) : frame :=
  filter_rows (eq_mask (col f "交易状态") "失败") f.

(** Everything the analysis stage prints. *)
Record analysis : Type := mkAnalysis {
  a_describe : describe_out;
  a_type_summary : list group_row;
  a_channel_count : list (value * nat);
  a_failed : frame
}.

Definition analyze (f : frame) : analysis :=
  mkAnalysis (describe (col f "交易金额")) (type_summary f)
             (channel_count f) (failed_transactions f).

(** Sum of a list of counts. *)
Definition sumn (l : list nat) : nat := fold_right Nat.add 0%nat l.

(** ** General lemmas *)

Lemma value_eqb_eq (v w : value) : value_eqb v w = true <-> v = w.
Proof.
  destruct v, w; simpl; split; intro H; try discriminate;
    try (inversion H; subst); try reflexivity.
  - apply Z.eqb_eq in H; now subst.
  - apply Z.eqb_refl.
  - apply String.eqb_eq in H; now subst.
  - apply String.eqb_refl.
Qed.

Section InsertionSort.
Context {A : Type} (le : A -> A -> bool).
Hypothesis le_total : forall x y, le x y = false -> le y x = true.

Let R := fun a b => le a b = true.

Lemma insert_by_perm (x : A) (l : list A) :
  Permutation (insert_by le x l) (x :: l).
Proof.
  induction l as [|y l IH]; simpl; [reflexivity|].
  destruct (le x y); [reflexivity|].
  rewrite IH. apply perm_swap.
Qed.

Lemma sort_by_perm (l : list A) : Permutation (sort_by le l) l.
Proof.
  induction l as [|x l IH]; simpl; [reflexivity|].
  rewrite insert_by_perm. now apply perm_skip.
Qed.

Lemma insert_by_sorted (x : A) (l : list A) :
  Sorted R l -> Sorted R (insert_by le x l).
Proof.
  induction l as [|y l IH]; simpl; intro Hs.
  - repeat constructor.
  - destruct (le x y) eqn:Exy.
    + constructor; [exact Hs | now constructor].
    + apply Sorted_inv in Hs as [Hl Hhd].
      constructor; [now apply IH|].
      destruct l as [|z l']; simpl.
      * constructor. now apply le_total.
      * destruct (le x z).
        -- constructor. now apply le_total.
        -- inversion Hhd; now constructor.
Qed.

Lemma sort_by_sorted (l : list A) : Sorted R (sort_by le l).
Proof.
  induction l as [|x l IH]; simpl; [constructor|].
  now apply insert_by_sorted.
Qed.
End InsertionSort.

Lemma desc_total (x y : value * nat) :
  Nat.leb (snd y) (snd x) = false -> Nat.leb (snd x) (snd y) = true.
Proof.
  intro H. apply Nat.leb_gt in H. apply Nat.leb_le. lia.
Qed.

Lemma uniq_from_complete (vs seen : list value) (v : value) :
  In v vs -> In v seen \/ In v (uniq_from seen vs).
Proof.
  revert seen. induction vs as [|a vs IH]; simpl; intros seen Hin; [contradiction|].
  destruct (existsb (value_eqb a) seen) eqn:E.
  - destruct Hin as [<-|Hin]; [|now apply IH].
    left. apply existsb_exists in E as [w [Hw Hq]].
    apply value_eqb_eq in Hq. now subst.
  - destruct Hin as [<-|Hin]; [right; now left|].
    destruct (IH (a :: seen) Hin) as [[<-|H]|H]; auto.
    right; now left.
    right; now right.
Qed.

Lemma categories_complete (vs : list value) (v : value) :
  In v vs -> is_null v = false -> In v (categories vs).
Proof.
  intros Hin Hn. unfold categories.
  eapply Permutation_in; [symmetry; apply sort_by_perm|].
  destruct (uniq_from_complete (filter (fun v => negb (is_null v)) vs) [] v)
    as [[]|H]; [|exact H].
  apply filter_In. split; [exact Hin|]. now rewrite Hn.
Qed.

Lemma value_counts_perm (vs : list value) :
  Permutation (value_counts vs) (map (fun c => (c, count_value c vs)) (categories vs)).
Proof. apply sort_by_perm. Qed.

Lemma row_astype_category (name : string) (f : frame) (i : nat) :
  row (astype_category name f) i = row f i.
Proof.
  unfold row, astype_category; simpl.
  rewrite map_map. apply map_ext. intro c.
  destruct (String.eqb (col_name c) name); reflexivity.
Qed.

Lemma rows_astype_category (name : string) (f : frame) :
  rows (astype_category name f) = rows f.
Proof.
  unfold rows, nrows; simpl. apply map_ext. intro i. apply row_astype_category.
Qed.

Lemma values_astype_category (name : string) (f : frame) :
  map col_values (columns (astype_category name f)) = map col_values (columns f).
Proof.
  unfold astype_category; simpl. rewrite map_map. apply map_ext. intro c.
  destruct (String.eqb (col_name c) name); reflexivity.
Qed.

Lemma names_astype_category (name : string) (f : frame) :
  map col_name (columns (astype_category name f)) = map col_name (columns f).
Proof.
  unfold astype_category; simpl. rewrite map_map. apply map_ext. intro c.
  destruct (String.eqb (col_name c) name); reflexivity.
Qed.

Lemma forallb_Forall {A : Type} (p : A -> bool) (P : A -> Prop) (l : list A) :
  (forall x, p x = true -> P x) -> forallb p l = true -> Forall P l.
Proof.
  intros Hp H. apply Forall_forall. intros x Hx.
  apply Hp. rewrite forallb_forall in H. now apply H.
Qed.

Fixpoint nodupb (l : list nat) : bool :=
  match l with
  | [] => true
  | x :: l' => negb (existsb (Nat.eqb x) l') && nodupb l'
  end.

Lemma nodupb_NoDup (l : list nat) : nodupb l = true -> NoDup l.
Proof.
  induction l as [|x l IH]; simpl; intro H; constructor.
  - apply andb_true_iff in H as [H _]. intro Hin.
    apply negb_true_iff in H. rewrite <- not_true_iff_false in H.
    apply H, existsb_exists. exists x. split; [exact Hin | apply Nat.eqb_refl].
  - apply andb_true_iff in H as [_ H]. now apply IH.
Qed.

Lemma inclb_incl (l l' : list nat) :
  forallb (fun x => existsb (Nat.eqb x) l') l = true -> incl l l'.
Proof.
  intros H x Hx. rewrite forallb_forall in H. specialize (H x Hx).
  apply existsb_exists in H as [y [Hy Hxy]]. apply Nat.eqb_eq in Hxy. now subst.
Qed.

Lemma Sorted_weaken {A : Type} (R R' : A -> A -> Prop) (l : list A) :
  (forall a b, R a b -> R' a b) -> Sorted R l -> Sorted R' l.
Proof.
  intros HR Hs. induction Hs as [|a l Hs IH Hhd]; constructor; [exact IH|].
  destruct Hhd; constructor. now apply HR.
Qed.

(** [value_counts] in general: descending counts, each count the number of
    occurrences of its value, and every non-missing value listed. *)
Lemma value_counts_spec (vs : list value) :
  Sorted (fun a b => (snd b <= snd a)%nat) (value_counts vs) /\
  Forall (fun p => snd p = count_value (fst p) vs) (value_counts vs) /\
  Forall (fun v => is_null v = true \/ In v (map fst (value_counts vs))) vs.
Proof.
  split; [|split].
  - eapply Sorted_weaken; [|apply (sort_by_sorted _ desc_total)].
    intros a b H. now apply Nat.leb_le.
  - eapply Permutation_Forall; [symmetry; apply value_counts_perm|].
    apply Forall_forall. intros p Hp. apply in_map_iff in Hp as [c [<- _]].
    reflexivity.
  - apply Forall_forall. intros v Hv.
    destruct (is_null v) eqn:Hn; [now left|right].
    eapply Permutation_in; [apply Permutation_map; symmetry; apply value_counts_perm|].
    rewrite map_map. simpl. rewrite map_id. now apply categories_complete.
Qed.

(** The sign pattern of a (type, amount) pair of the dataset. *)
Definition sign_ok (t a : value) : bool :=
  match t, a with
  | VStr s, VInt z =>
      if String.eqb s "存款" then Z.ltb 0 z
      else if String.eqb s "取款" || String.eqb s "转账" then Z.ltb z 0
      else false
  | _, _ => false
  end.

Lemma sign_ok_spec (p : value * value) :
  sign_ok (fst p) (snd p) = true ->
  (fst p = VStr "存款" /\ exists a, snd p = VInt a /\ (0 < a)%Z) \/
  ((fst p = VStr "取款" \/ fst p = VStr "转账") /\ exists a, snd p = VInt a /\ (a < 0)%Z).
Proof.
  destruct p as [[| s |] [z | |]]; simpl; intro H; try discriminate H.
  destruct (String.eqb s "存款") eqn:E1.
  - apply String.eqb_eq in E1. subst. left. split; [reflexivity|].
    exists z. split; [reflexivity|]. now apply Z.ltb_lt.
  - right. destruct (String.eqb s "取款") eqn:E2; simpl in H.
    + apply String.eqb_eq in E2. subst. split; [now left|].
      exists z. split; [reflexivity|]. now apply Z.ltb_lt.
    + destruct (String.eqb s "转账") eqn:E3; [|discriminate H].
      apply String.eqb_eq in E3. subst. split; [now right|].
      exists z. split; [reflexivity|]. now apply Z.ltb_lt.
Qed.

(** ** Claims *)

(** C1 (as stated, refuted): the outlier filter of line 50 does not flag
    exactly the two rows with amounts 12000 and -3500 of the dataset. *)
Lemma C1_counterexample :
  ~ (nrows (abnormal df) = 2%nat /\
     col (abnormal df) "交易金额" = [VInt 12000; VInt (-3500)]).
Proof. vm_compute. intros [H _]. discriminate H. Qed.

(** C1 (amended): on the dataset the filter (amount > 10000 or
    amount < -5000) flags exactly one row, index 6, the one with amount
    12000, and that row is what gets printed; for any table, the fixed
    message is printed exactly when no row is flagged. *)
Theorem C1_abnormal_rows :
  index (abnormal df) = [6%Z] /\
  rows (abnormal df) = [row df 6] /\
  col (abnormal df) "交易金额" = [VInt 12000] /\
  outlier_report df = PrintFrame (abnormal df) /\
  (forall f, outlier_report f = PrintMsg no_abnormal_msg <->
             frame_empty (abnormal f) = true).
Proof.
  split; [vm_compute; reflexivity|].
  split; [vm_compute; reflexivity|].
  split; [vm_compute; reflexivity|].
  split; [vm_compute; reflexivity|].
  intro f. unfold outlier_report.
  destruct (frame_empty (abnormal f)); simpl; split; intro H;
    try reflexivity; discriminate H.
Qed.

(** C2: the cleaning stage changes no cell of the dataset: the cleaned
    table has the same index, the same column names and values and hence
    the same rows as the generated one; only the dtypes of 交易类型 and
    交易渠道 change, to [Category]. *)
Theorem C2_cleaner_frame :
  index df_clean = index df /\
  rows df_clean = rows df /\
  map col_name (columns df_clean) = map col_name (columns df) /\
  map col_values (columns df_clean) = map col_values (columns df) /\
  map col_dtype (columns df_clean) =
    map (fun c => if String.eqb (col_name c) "交易类型" || String.eqb (col_name c) "交易渠道"
                  then Category else col_dtype c) (columns df).
Proof.
  unfold df_clean, cleaner; cbn [snd].
  split; [reflexivity|].
  split; [rewrite !rows_astype_category; reflexivity|].
  split; [rewrite !names_astype_category; reflexivity|].
  split; [rewrite !values_astype_category; reflexivity|].
  vm_compute. reflexivity.
Qed.

(** C3: the DataFrame constructor succeeds on the literal data and gives
    20 rows and 6 columns, every column of length 20, with 交易ID the ints
    1001 to 1020 in order. *)
Theorem C3_df_shape :
  DataFrame data = Some df /\
  nrows df = 20%nat /\
  length (columns df) = 6%nat /\
  Forall (fun c => length (col_values c) = 20%nat) (columns df) /\
  col df "交易ID" = ints [1001; 1002; 1003; 1004; 1005; 1006; 1007; 1008; 1009; 1010;
                          1011; 1012; 1013; 1014; 1015; 1016; 1017; 1018; 1019; 1020]%Z.
Proof.
  split; [vm_compute; reflexivity|].
  split; [vm_compute; reflexivity|].
  split; [vm_compute; reflexivity|].
  split; [|vm_compute; reflexivity].
  vm_compute. repeat constructor.
Qed.

(** C4: the failure filter of line 82 returns exactly one row, with
    customer C1004 and amount -500. *)
Theorem C4_failed_transactions :
  nrows (failed_transactions df_clean) = 1%nat /\
  col (failed_transactions df_clean) "客户ID" = [VStr "C1004"] /\
  col (failed_transactions df_clean) "交易金额" = [VInt (-500)].
Proof. vm_compute. repeat split. Qed.

(** C5: [df.duplicated().sum()] is 0 on the dataset. *)
Theorem C5_no_duplicates : duplicated_sum df = 0%nat.
Proof. vm_compute. reflexivity. Qed.

(** C6: [df.isnull().sum()], which counts the missing cells of each
    column, gives 0 for every column of the dataset. *)
Theorem C6_no_missing :
  isnull_sum df = map (fun c => (col_name c, 0%nat)) (columns df).
Proof. vm_compute. reflexivity. Qed.

(** C7: the groups of the 交易类型 summary partition the dataset: their
    counts add up to 20, the group keys are distinct, and the row
    positions of the groups together are a permutation of the 20 rows
    (every row in exactly one group). *)
Theorem C7_type_groups_partition :
  fold_right Nat.add 0%nat (map g_count (type_summary df_clean)) = 20%nat /\
  NoDup (map g_key (type_summary df_clean)) /\
  Permutation
    (concat (map (fun g => group_indices df_clean "交易类型" (g_key g))
                 (type_summary df_clean)))
    (seq 0 (nrows df_clean)).
Proof.
  split; [vm_compute; reflexivity|].
  split.
  - vm_compute. repeat constructor; simpl; intuition discriminate.
  - apply NoDup_Permutation.
    + apply nodupb_NoDup. vm_compute. reflexivity.
    + apply seq_NoDup.
    + intro x. split; apply inclb_incl; vm_compute; reflexivity.
Qed.

(** C8: the analysis stage has fixed outputs on the dataset: the amount
    statistics (count, mean, variance, min, quartiles, max), the summary by
    交易类型, the channel counts and the failed rows are the values below,
    so every run over the literal data prints the same aggregates. *)
Theorem C8_analysis_outputs :
  a_describe (analyze df_clean) =
    mkDescribe 20 1540 (440988000 # 19) (-4000) (-2050) (-900) 5250 12000 /\
  a_type_summary (analyze df_clean) =
    [mkGroupRow (VStr "取款") 6 (-7700) (Some (-128333 # 100));
     mkGroupRow (VStr "存款") 8 54500 (Some (13625 # 2));
     mkGroupRow (VStr "转账") 6 (-16000) (Some (-266667 # 100))] /\
  a_channel_count (analyze df_clean) =
    [(VStr "ATM", 5%nat); (VStr "手机银行", 5%nat); (VStr "柜台", 5%nat); (VStr "网银", 5%nat)] /\
  index (a_failed (analyze df_clean)) = [4%Z] /\
  rows (a_failed (analyze df_clean)) =
    [[VInt 1005; VStr "C1004"; VStr "取款"; VInt (-500); VStr "ATM"; VStr "失败"]].
Proof. vm_compute. repeat split. Qed.

(** C9: the channel value counts are in descending order of count, each
    count is the number of rows with that channel, and every channel of the
    table is listed. *)
Theorem C9_channel_count_sorted :
  Sorted (fun a b => (snd b <= snd a)%nat) (channel_count df_clean) /\
  Forall (fun p => snd p = count_value (fst p) (col df_clean "交易渠道"))
         (channel_count df_clean) /\
  Forall (fun v => In v (map fst (channel_count df_clean))) (col df_clean "交易渠道").
Proof.
  destruct (value_counts_spec (col df_clean "交易渠道")) as [Hs [Hc Hall]].
  split; [exact Hs|]. split; [exact Hc|].
  assert (Hnn : Forall (fun v => is_null v = false) (col df_clean "交易渠道")).
  { vm_compute. repeat constructor. }
  apply Forall_forall. intros v Hv.
  rewrite Forall_forall in Hall, Hnn.
  destruct (Hall v Hv) as [Hn|Hin]; [|exact Hin].
  rewrite (Hnn v Hv) in Hn. discriminate Hn.
Qed.

(** C10: in the dataset every 存款 (deposit) row has a positive amount and
    every 取款 (withdrawal) or 转账 (transfer) row a negative one; so each
    group of the 交易类型 summary has amounts all of one sign. *)
Theorem C10_type_signs :
  Forall (fun p =>
            (fst p = VStr "存款" /\ exists a, snd p = VInt a /\ (0 < a)%Z) \/
            ((fst p = VStr "取款" \/ fst p = VStr "转账") /\
             exists a, snd p = VInt a /\ (a < 0)%Z))
         (combine (col df "交易类型") (col df "交易金额")) /\
  Forall (fun g =>
            Forall (fun z => (0 < z)%Z) (group_amounts df_clean "交易类型" "交易金额" (g_key g)) \/
            Forall (fun z => (z < 0)%Z) (group_amounts df_clean "交易类型" "交易金额" (g_key g)))
         (type_summary df_clean).
Proof.
  split.
  - apply (forallb_Forall (fun p => sign_ok (fst p) (snd p))).
    + apply sign_ok_spec.
    + vm_compute. reflexivity.
  - apply (forallb_Forall
             (fun g => forallb (Z.ltb 0) (group_amounts df_clean "交易类型" "交易金额" (g_key g))
                       || forallb (fun z => Z.ltb z 0)
                            (group_amounts df_clean "交易类型" "交易金额" (g_key g)))).
    + intros g H. apply orb_true_iff in H as [H|H]; [left|right];
        refine (forallb_Forall _ _ _ _ H); intros z Hz; now apply Z.ltb_lt.
    + vm_compute. reflexivity.
Qed.

(** ** Further properties of the pipeline's operations *)

Lemma col_filter_rows (m : list bool) (f : frame) (name : string) :
  col (filter_rows m f) name = select m (col f name).
Proof.
  unfold col, filter_rows; simpl.
  induction (columns f) as [|c cs IH]; simpl; [destruct m; reflexivity|].
  destruct (String.eqb (col_name c) name); [reflexivity | exact IH].
Qed.

Lemma select_map_self {A : Type} (p : A -> bool) (l : list A) :
  select (map p l) l = filter p l.
Proof.
  induction l as [|x l IH]; simpl; [reflexivity|].
  destruct (p x); simpl; now rewrite IH.
Qed.

Lemma or_mask_map {A : Type} (p1 p2 : A -> bool) (l : list A) :
  or_mask (map p1 l) (map p2 l) = map (fun x => p1 x || p2 x) l.
Proof.
  unfold or_mask. induction l as [|x l IH]; simpl; [reflexivity|].
  now rewrite IH.
Qed.




(** Line 50 in general: on any table, the amount column of [abnormal] is
    exactly the amounts above 10000 or below -5000, in their order. *)
Theorem abnormal_amounts_exact (f : frame) :
  col (abnormal f) "交易金额" =
  filter (fun v => match v with
                   | VInt z => (z >? 10000)%Z || (z <? -5000)%Z
                   | _ => false
                   end) (col f "交易金额").
Proof.
  unfold abnormal. rewrite col_filter_rows.
  unfold gt_mask, lt_mask. rewrite or_mask_map, select_map_self.
  apply filter_ext. intros [z| |]; reflexivity.
Qed.

(** Line 82 in general: on any table, the status column of the failure
    filter is exactly the occurrences of 失败, so every returned row failed
    and every failed row is returned. *)
Theorem failed_status_exact (f : frame) :
  col (failed_transactions f) "交易状态" =
  filter (value_eqb (VStr "失败")) (col f "交易状态").
Proof.
  unfold failed_transactions, eq_mask. rewrite col_filter_rows, select_map_self.
  apply filter_ext. intros [z|s|]; simpl; try reflexivity.
  apply String.eqb_sym.
Qed.






Lemma uniq_from_sound (vs seen : list value) (v : value) :
  In v (uniq_from seen vs) -> In v vs /\ ~ In v seen.
Proof.
  revert seen. induction vs as [|a vs IH]; simpl; intros seen H; [contradiction|].
  destruct (existsb (value_eqb a) seen) eqn:E.
  - destruct (IH seen H) as [H1 H2]. split; [now right | exact H2].
  - destruct H as [->|H].
    + split; [now left|]. intro Hs. rewrite <- not_true_iff_false in E.
      apply E, existsb_exists. exists v. split; [exact Hs | now apply value_eqb_eq].
    + destruct (IH (a :: seen) H) as [H1 H2]. split; [now right|].
      intro Hs. apply H2. now right.
Qed.

Lemma uniq_from_nodup (vs seen : list value) : NoDup (uniq_from seen vs).
Proof.
  revert seen. induction vs as [|a vs IH]; simpl; intro seen; [constructor|].
  destruct (existsb (value_eqb a) seen); [apply IH|].
  constructor; [|apply IH].
  intro H. apply uniq_from_sound in H as [_ H]. apply H. now left.
Qed.

Lemma value_leb_total (v w : value) : value_leb v w = false -> value_leb w v = true.
Proof.
  destruct v as [a|a|], w as [b|b|]; simpl; intro H; try discriminate H; try reflexivity.
  - apply Z.leb_gt in H. apply Z.leb_le. lia.
  - rewrite String.compare_antisym.
    destruct (String.compare a b); simpl in *; try reflexivity; discriminate H.
Qed.

(** [astype('category')] in general: the categories are distinct, sorted,
    and exactly the non-missing values of the column. *)
Theorem categories_spec (vs : list value) :
  NoDup (categories vs) /\
  Sorted (fun a b => value_leb a b = true) (categories vs) /\
  (forall v, In v (categories vs) <-> In v vs /\ is_null v = false).
Proof.
  split; [|split].
  - eapply Permutation_NoDup; [symmetry; apply sort_by_perm | apply uniq_from_nodup].
  - apply (sort_by_sorted _ value_leb_total).
  - intro v. split.
    + intro H. unfold categories in H.
      eapply Permutation_in in H; [|apply sort_by_perm].
      apply uniq_from_sound in H as [H _]. apply filter_In in H as [H1 H2].
      split; [exact H1|]. now apply negb_true_iff.
    + intros [H1 H2]. now apply categories_complete.
Qed.


Lemma sumn_map_add {A : Type} (g h : A -> nat) (l : list A) :
  sumn (map (fun x => (g x + h x)%nat) l) = (sumn (map g l) + sumn (map h l))%nat.
Proof. induction l as [|x l IH]; simpl; [reflexivity|]. rewrite IH. lia. Qed.

Lemma sumn_map_zero {A : Type} (l : list A) : sumn (map (fun _ => 0%nat) l) = 0%nat.
Proof. induction l; simpl; auto. Qed.

Lemma sumn_perm (l l' : list nat) : Permutation l l' -> sumn l = sumn l'.
Proof. induction 1; simpl; lia. Qed.

Lemma sum_indicator_notin (cs : list value) (k : value) (n : nat) :
  ~ In k cs -> sumn (map (fun c => if value_eqb c k then n else 0%nat) cs) = 0%nat.
Proof.
  induction cs as [|c cs IH]; simpl; intro H; [reflexivity|].
  destruct (value_eqb c k) eqn:E.
  - apply value_eqb_eq in E. exfalso. apply H. now left.
  - rewrite IH; [reflexivity|]. intro Hk. apply H. now right.
Qed.

Lemma sum_indicator_in (cs : list value) (k : value) (n : nat) :
  NoDup cs -> In k cs -> sumn (map (fun c => if value_eqb c k then n else 0%nat) cs) = n.
Proof.
  induction cs as [|c cs IH]; simpl; intros Hnd H; [contradiction|].
  inversion Hnd as [|c' cs' Hnin Hnd']; subst.
  destruct (value_eqb c k) eqn:E.
  - apply value_eqb_eq in E. subst. rewrite sum_indicator_notin; [lia | exact Hnin].
  - destruct H as [->|H]; [now rewrite (proj2 (value_eqb_eq k k) eq_refl) in E|].
    rewrite IH; auto.
Qed.

Lemma count_value_cons (c v : value) (vs : list value) :
  count_value c (v :: vs) = ((if value_eqb c v then 1 else 0) + count_value c vs)%nat.
Proof. unfold count_value; simpl. destruct (value_eqb c v); reflexivity. Qed.

Lemma count_sum (cs vs : list value) :
  NoDup cs -> (forall v, In v vs -> (In v cs <-> is_null v = false)) ->
  sumn (map (fun c => count_value c vs) cs) = length (filter (fun v => negb (is_null v)) vs).
Proof.
  intros Hnd. revert cs Hnd. induction vs as [|v vs IH]; intros cs Hnd Hcs.
  - erewrite map_ext; [apply sumn_map_zero|]. reflexivity.
  - erewrite map_ext; [|intro c; apply count_value_cons].
    rewrite sumn_map_add.
    rewrite IH; [|exact Hnd|intros w Hw; apply Hcs; now right].
    simpl. destruct (is_null v) eqn:Hn; simpl.
    + rewrite sum_indicator_notin; [reflexivity|].
      intro Hin. apply (Hcs v (or_introl eq_refl)) in Hin. congruence.
    + rewrite sum_indicator_in; [reflexivity | exact Hnd |].
      now apply (Hcs v (or_introl eq_refl)).
Qed.

(** [value_counts] in general: the counts add up to the number of
    non-missing values of the column. *)
Theorem value_counts_total (vs : list value) :
  sumn (map snd (value_counts vs)) = length (filter (fun v => negb (is_null v)) vs).
Proof.
  rewrite (sumn_perm _ _ (Permutation_map snd (value_counts_perm vs))).
  rewrite map_map. simpl.
  destruct (categories_spec vs) as [Hnd [_ Hcs]].
  apply count_sum; [exact Hnd|].
  intros v Hv. rewrite Hcs. split; [intros [_ H]; exact H | intro H; now split].
Qed.

Lemma dropna_cons_len (v : value) (l : list value) :
  length (dropna_ints (v :: l)) = (length (dropna_ints [v]) + length (dropna_ints l))%nat.
Proof. destruct v; reflexivity. Qed.

Lemma group_count_sum (cs ks vs : list value) :
  NoDup cs -> length ks = length vs -> (forall k, In k ks -> In k cs) ->
  sumn (map (fun c => length (dropna_ints (select (map (value_eqb c) ks) vs))) cs) =
  length (dropna_ints vs).
Proof.
  intro Hnd. revert vs. induction ks as [|k ks IH]; intros [|v vs] Hlen Hin;
    simpl in Hlen; try discriminate Hlen.
  - erewrite map_ext; [apply sumn_map_zero|]. reflexivity.
  - erewrite map_ext.
    2:{ intro c. simpl.
        instantiate (1 := fun c => ((if value_eqb c k then length (dropna_ints [v]) else 0)
                                    + length (dropna_ints (select (map (value_eqb c) ks) vs)))%nat).
        simpl. destruct (value_eqb c k); [apply dropna_cons_len | reflexivity]. }
    rewrite sumn_map_add, sum_indicator_in, IH; [|lia|intros k' H; apply Hin; now right
                                                |exact Hnd|apply Hin; now left].
    symmetry. apply dropna_cons_len.
Qed.

(** The grouped summary in general: when the key column is as long as the
    value column and has no missing key, the group counts add up to the
    number of non-missing values, so each such value is counted in exactly
    one group. *)
Theorem group_counts_total (f : frame) (key val : string) :
  length (col f key) = length (col f val) ->
  Forall (fun k => is_null k = false) (col f key) ->
  sumn (map g_count (group_agg f key val)) = length (dropna_ints (col f val)).
Proof.
  intros Hlen Hnn.
  unfold group_agg. rewrite map_map. simpl.
  unfold group_amounts, group_mask.
  destruct (categories_spec (col f key)) as [Hnd [_ Hcs]].
  apply group_count_sum; [exact Hnd | exact Hlen |].
  intros k Hk. apply Hcs. split; [exact Hk|].
  rewrite Forall_forall in Hnn. now apply Hnn.
Qed.

Lemma group_counts_total_witness :
  sumn (map g_count (group_agg df_clean "交易类型" "交易金额")) =
  length (dropna_ints (col df_clean "交易金额")).
Proof.
  apply group_counts_total.
  - vm_compute. reflexivity.
  - vm_compute. repeat constructor.
Defined.

Lemma row_eqb_eq (r s : list value) : row_eqb r s = true -> r = s.
Proof.
  revert s. induction r as [|v r IH]; intros [|w s]; simpl; intro H;
    try reflexivity; try discriminate H.
  apply andb_true_iff in H as [H1 H2].
  apply value_eqb_eq in H1. subst. f_equal. now apply IH.
Qed.

Lemma map_eq_in {A B : Type} (g h : A -> B) (l : list A) (x : A) :
  map g l = map h l -> In x l -> g x = h x.
Proof.
  induction l as [|y l IH]; simpl; intros Heq Hin; [contradiction|].
  injection Heq as Hy Hl. destruct Hin as [<-|Hin]; [exact Hy | now apply IH].
Qed.

Lemma filter_id_map_false {A : Type} (g : A -> bool) (l : list A) :
  (forall x, In x l -> g x = false) -> filter (fun b => b) (map g l) = [].
Proof.
  induction l as [|x l IH]; simpl; intro H; [reflexivity|].
  rewrite (H x (or_introl eq_refl)). apply IH. intros y Hy. apply H. now right.
Qed.

(** [df.duplicated()] in general: a table with a column of pairwise
    distinct values covering every row (a key such as 交易ID) has no
    duplicated row. *)
Theorem unique_column_no_duplicates (f : frame) (c : column) :
  In c (columns f) -> NoDup (col_values c) -> length (col_values c) = nrows f ->
  duplicated_sum f = 0%nat.
Proof.
  intros Hc Hnd Hlen. unfold duplicated_sum, duplicated.
  rewrite filter_id_map_false; [reflexivity|].
  intros i Hi. apply in_seq in Hi.
  apply not_true_iff_false. intro He.
  apply existsb_exists in He as [j [Hj Heq]]. apply in_seq in Hj.
  apply row_eqb_eq in Heq. unfold row in Heq.
  pose proof (map_eq_in _ _ _ c Heq Hc) as Hn. simpl in Hn.
  apply (proj1 (NoDup_nth _ VNull) Hnd j i) in Hn; lia.
Qed.

Lemma unique_column_no_duplicates_witness : duplicated_sum df = 0%nat.
Proof.
  apply (unique_column_no_duplicates df (hd (mkColumn "" Object []) (columns df))).
  - vm_compute. left. reflexivity.
  - vm_compute. repeat constructor; simpl; intuition discriminate.
  - vm_compute. reflexivity.
Defined.









